(** * coin_collector: the per-frame simulation core of [src/app.ts]

    A shallow embedding of class [App]: the before-render callback that
    [loadModel] registers (keyboard locomotion, dance, jump), the three
    methods the render loop calls every frame ([updateCamera],
    [applyGravityAndJump], [updateGame]) and the render loop itself.

    JavaScript numbers are IEEE-754 binary64 values, here Rocq's primitive
    floats.  The Babylon.js engine (collision-aware moves, rotation, the
    forward axis of a mesh, bounding-volume intersection) is not part of the
    repository: it is the interface [Engine], and every theorem holds for
    every implementation of it.  [FlatWorld] is one implementation, an empty
    scene without obstacles, on which the theorems are exercised. *)

From Stdlib Require Import Floats ZArith List Bool String Lia.
From Stdlib Require Import DecimalString Permutation.
Import ListNotations.

Set Warnings "-inexact-float".
Set Implicit Arguments.

Local Open Scope float_scope.

(** ** Babylon's [Vector3] *)

Module Vector3.

Record t : Type := New { x : float; y : float; z : float }.

(** [v.add(o)]: a new vector, componentwise sum. *)
Definition add (v o : t) : t :=
  New (x v + x o) (y v + y o) (z v + z o).

(** [v.scale(k)] and, on a temporary, [v.scaleInPlace(k)]. *)
Definition scale (v : t) (k : float) : t :=
  New (x v * k) (y v * k) (z v * k).

(** [Vector3.Up()]. *)
Definition Up : t := New 0 1 0.

(** [v.y = k]. *)
Definition setY (v : t) (k : float) : t := New (x v) k (z v).

End Vector3.

(** ** The engine interface

    What the code asks of a Babylon [Mesh]: its [position], its [forward]
    axis, [rotate(axis, amount)], [moveWithCollisions(displacement)] and
    [intersectsMesh(other, precise)]. *)

Class Engine (Mesh : Type) : Type := {
  position : Mesh -> Vector3.t;
  forward : Mesh -> Vector3.t;
  rotate : Mesh -> Vector3.t -> float -> Mesh;
  moveWithCollisions : Mesh -> Vector3.t -> Mesh;
  intersectsMesh : Mesh -> Mesh -> bool -> bool
}.

(** ** Input and collaborators *)

(** [keyStatus] of [loadModel]; [space] is the key [' ']. *)
Record KeyStatus : Type := {
  w : bool; s : bool; a : bool; d : bool; b : bool; Shift : bool; space : bool
}.

(** The four animation groups looked up by name in [loadModel]. *)
Inductive AnimationGroup : Type := Walking | WalkingBack | Idle | Samba.

(** Calls made on the animation groups, in the order they are made.
    [AnimStart g loop speedRatio] is [g.start(loop, speedRatio, g.from, g.to,
    false)]. *)
Inductive AnimCall : Type :=
| AnimStop (g : AnimationGroup)
| AnimStart (g : AnimationGroup) (loop : bool) (speedRatio : float)
| AnimSpeedRatio (g : AnimationGroup) (speedRatio : float).

(** The [FreeCamera]: its position and the point last given to
    [setTarget] (none before the first call). *)
Record Camera : Type := {
  cam_position : Vector3.t;
  cam_target : option Vector3.t
}.

(** What one turn of the render loop reads from outside: the key states as
    the key handlers left them, and [engine.getDeltaTime()] in
    milliseconds. *)
Record FrameInput : Type := {
  keys : KeyStatus;
  deltaMs : float
}.

(** The locomotion category a frame selects (spec, data model); in the code
    it is the animation group the callback starts. *)
Inductive LocomotionMode : Type :=
| ModeIdle | WalkForward | WalkBackward | RunForward | Dance.

(** ** Constants *)

Definition gravity : Vector3.t := Vector3.New 0 (-9.81) 0.
Definition jumpForce : float := 4.

Definition playerWalkSpeed : float := 0.03.
Definition playerRunSpeed : float := 0.1.
Definition playerSpeedBackwards : float := 0.01.
Definition playerRotationSpeed : float := 0.06.
Definition runAnimSpeed : float := 3.
Definition walkBackSpeed : float := 1.

(** [undefined] read as a number is NaN. *)
Definition toNumber (v : option float) : float :=
  match v with Some k => k | None => nan end.

(** ** A state monad with one fault

    A method either finishes with a new state or throws the [TypeError]
    JavaScript raises when a property of [null] is read. *)

Inductive Result (A : Type) : Type :=
| Ok (v : A)
| TypeError.
Arguments TypeError {A}.

Definition M (S A : Type) : Type := S -> Result (A * S).

Definition ret {S A : Type} (v : A) : M S A := fun st => Ok (v, st).

Definition bind {S A B : Type} (m : M S A) (k : A -> M S B) : M S B :=
  fun st =>
    match m st with
    | Ok (v, st') => k v st'
    | TypeError => TypeError
    end.

Definition gets {S A : Type} (f : S -> A) : M S A := fun st => Ok (f st, st).

Definition modify {S : Type} (f : S -> S) : M S unit := fun st => Ok (tt, f st).

Definition when {S : Type} (c : bool) (m : M S unit) : M S unit :=
  if c then m else ret tt.

Declare Scope action_scope.
Delimit Scope action_scope with action.
Notation "x <- m ;; k" := (bind m (fun x => k))
  (at level 61, m at next level, right associativity) : action_scope.
Notation "m ;; k" := (bind m (fun _ => k))
  (at level 61, right associativity) : action_scope.
Local Open Scope action_scope.

Section WithEngine.

Variable Mesh : Type.
Context {E : Engine Mesh}.

(** ** The state of [App]

    The fields of the class, the two mutable locals of [loadModel] that the
    callback closes over ([speed], [animSpeed]; [None] is [undefined]), and
    the calls received by the collaborators: animation groups, the console,
    disposed meshes. *)
Record App : Type := {
  player : option Mesh;
  camera : Camera;
  isGrounded : bool;
  velocity : Vector3.t;
  spheres : list Mesh;
  speed : option float;
  animSpeed : option float;
  animations : list AnimCall;
  console : list string;
  disposed : list Mesh
}.

(** Field assignments, [this.f = v]: one per field. *)
Definition with_player (v : option Mesh) (st : App) : App :=
  match st with
  | Build_App _ cam g vel sph spd asp an con dis =>
      Build_App v cam g vel sph spd asp an con dis
  end.

Definition with_camera (v : Camera) (st : App) : App :=
  match st with
  | Build_App pl _ g vel sph spd asp an con dis =>
      Build_App pl v g vel sph spd asp an con dis
  end.

Definition with_isGrounded (v : bool) (st : App) : App :=
  match st with
  | Build_App pl cam _ vel sph spd asp an con dis =>
      Build_App pl cam v vel sph spd asp an con dis
  end.

Definition with_velocity (v : Vector3.t) (st : App) : App :=
  match st with
  | Build_App pl cam g _ sph spd asp an con dis =>
      Build_App pl cam g v sph spd asp an con dis
  end.

Definition with_spheres (v : list Mesh) (st : App) : App :=
  match st with
  | Build_App pl cam g vel _ spd asp an con dis =>
      Build_App pl cam g vel v spd asp an con dis
  end.

Definition with_speed (v : option float) (st : App) : App :=
  match st with
  | Build_App pl cam g vel sph _ asp an con dis =>
      Build_App pl cam g vel sph v asp an con dis
  end.

Definition with_animSpeed (v : option float) (st : App) : App :=
  match st with
  | Build_App pl cam g vel sph spd _ an con dis =>
      Build_App pl cam g vel sph spd v an con dis
  end.

Definition with_animations (v : list AnimCall) (st : App) : App :=
  match st with
  | Build_App pl cam g vel sph spd asp _ con dis =>
      Build_App pl cam g vel sph spd asp v con dis
  end.

Definition with_console (v : list string) (st : App) : App :=
  match st with
  | Build_App pl cam g vel sph spd asp an _ dis =>
      Build_App pl cam g vel sph spd asp an v dis
  end.

Definition with_disposed (v : list Mesh) (st : App) : App :=
  match st with
  | Build_App pl cam g vel sph spd asp an con _ =>
      Build_App pl cam g vel sph spd asp an con v
  end.

(** [this.player.x]: reading a property of the player faults when the
    field is [null]. *)
Definition thisPlayer : M App Mesh :=
  fun st =>
    match player st with
    | Some p => Ok (p, st)
    | None => TypeError
    end.

(** [this.player.rotate(axis, amount)]: the mesh object is updated in
    place.  The callback's local [player] is the same object. *)
Definition playerRotate (axis : Vector3.t) (amount : float) : M App unit :=
  p <- thisPlayer ;;
  modify (with_player (Some (rotate p axis amount))).

(** [this.player.moveWithCollisions(displacement)]. *)
Definition playerMoveWithCollisions (displacement : Vector3.t) : M App unit :=
  p <- thisPlayer ;;
  modify (with_player (Some (moveWithCollisions p displacement))).

(** A call on an animation group, recorded after the earlier ones. *)
Definition animCall (c : AnimCall) : M App unit :=
  modify (fun st => with_animations (animations st ++ [c]) st).

(** [console.log(msg)]. *)
Definition consoleLog (msg : string) : M App unit :=
  modify (fun st => with_console (console st ++ [msg]) st).

(** [sphere.dispose()]. *)
Definition dispose (sphere : Mesh) : M App unit :=
  modify (fun st => with_disposed (disposed st ++ [sphere]) st).

(** [this.velocity.y = k]. *)
Definition setVelocityY (k : float) : M App unit :=
  modify (fun st => with_velocity (Vector3.setY (velocity st) k) st).

(** ** The before-render callback of [loadModel] (lines 163-217)

    The dance branch ends in [return], so the rest is its [else].  The
    local [isMoving] is the value of the movement block.  Inside that block
    the source has an [if] / [else if] without a final [else]; the last
    [else ret tt] below stands for falling through it. *)
Definition onBeforeRender (keyStatus : KeyStatus) : M App unit :=
  if b keyStatus then
    animCall (AnimStop Walking) ;;
    animCall (AnimStop WalkingBack) ;;
    animCall (AnimStop Idle) ;;
    animCall (AnimStart Samba true 1)
  else
    when (a keyStatus) (playerRotate Vector3.Up (- playerRotationSpeed)) ;;
    when (d keyStatus) (playerRotate Vector3.Up playerRotationSpeed) ;;
    isMoving <-
      (if w keyStatus || s keyStatus then
         (if s keyStatus && negb (w keyStatus) then
            modify (with_speed (Some (- playerSpeedBackwards))) ;;
            animCall (AnimStart WalkingBack true 1)
          else if w keyStatus then
            modify (with_speed
              (Some (if Shift keyStatus then playerRunSpeed
                     else playerWalkSpeed))) ;;
            modify (with_animSpeed
              (Some (if Shift keyStatus then runAnimSpeed
                     else walkBackSpeed))) ;;
            r <- gets animSpeed ;;
            animCall (AnimSpeedRatio Walking (toNumber r)) ;;
            animCall (AnimStart Walking true (toNumber r))
          else ret tt) ;;
         p <- thisPlayer ;;
         v <- gets speed ;;
         playerMoveWithCollisions (Vector3.scale (forward p) (toNumber v)) ;;
         ret true
       else ret false) ;;
    when (negb isMoving)
      (animCall (AnimStart Idle true 1) ;;
       animCall (AnimStop Walking) ;;
       animCall (AnimStop WalkingBack)) ;;
    grounded <- gets isGrounded ;;
    when (space keyStatus && grounded)
      (consoleLog "Jumping" ;;
       setVelocityY jumpForce ;;
       modify (with_isGrounded false)).

(** ** [applyGravityAndJump] (lines 220-237) *)
Definition applyGravityAndJump (deltaMs : float) : M App unit :=
  present <- gets player ;;
  match present with
  | Some _ =>
      let deltaTime := deltaMs / 1000 in
      grounded <- gets isGrounded ;;
      when (negb grounded)
        (modify (fun st =>
           with_velocity
             (Vector3.add (velocity st) (Vector3.scale gravity deltaTime))
             st)) ;;
      v <- gets velocity ;;
      playerMoveWithCollisions (Vector3.scale v deltaTime) ;;
      p <- thisPlayer ;;
      when (Vector3.y (position p) <=? 0.1)
        (modify (with_isGrounded true) ;;
         setVelocityY 0)
  | None => ret tt
  end.

(** ** [updateCamera] (lines 240-257) *)
Definition updateCamera : M App unit :=
  present <- gets player ;;
  match present with
  | Some _ =>
      let followDistance := 10 in
      let cameraHeight := 5 in
      p <- thisPlayer ;;
      let backward := Vector3.scale (forward p) (- followDistance) in
      let cameraPosition := Vector3.add (position p) backward in
      modify (fun st =>
        with_camera
          {| cam_position :=
               Vector3.New (Vector3.x cameraPosition) cameraHeight
                 (Vector3.z cameraPosition);
             cam_target := cam_target (camera st) |} st) ;;
      p' <- thisPlayer ;;
      modify (fun st =>
        with_camera
          {| cam_position := cam_position (camera st);
             cam_target := Some (position p') |} st)
  | None => ret tt
  end.

(** ** [updateGame] (lines 285-295) *)

(** [Array.prototype.filter] with a callback that has effects: the
    elements are visited once each, first to last, and the kept ones are
    collected into a new array. *)
Fixpoint filterM (keep : Mesh -> M App bool) (l : list Mesh) : M App (list Mesh) :=
  match l with
  | [] => ret []
  | sphere :: rest =>
      k <- keep sphere ;;
      kept <- filterM keep rest ;;
      ret (if k then sphere :: kept else kept)
  end.

Definition updateGame : M App unit :=
  present <- gets player ;;
  match present with
  | None => ret tt
  | Some _ =>
      live <- gets spheres ;;
      survivors <-
        filterM (fun sphere =>
                   p <- thisPlayer ;;
                   if intersectsMesh sphere p false then
                     dispose sphere ;;
                     ret false
                   else ret true) live ;;
      modify (with_spheres survivors)
  end.

(** ** The render loop (lines 87-92) *)

(** [this.scene.render()], as far as the simulation goes: the scene
    notifies its before-render observers.  [loadModel] sets [this.player]
    and registers the callback in one synchronous stretch, so the callback
    is registered exactly when the player is present. *)
Definition sceneRender (keyStatus : KeyStatus) : M App unit :=
  present <- gets player ;;
  match present with
  | Some _ => onBeforeRender keyStatus
  | None => ret tt
  end.

(** The function given to [engine.runRenderLoop]: one frame. *)
Definition renderLoop (i : FrameInput) : M App unit :=
  sceneRender (keys i) ;;
  updateCamera ;;
  applyGravityAndJump (deltaMs i) ;;
  updateGame.

(** Consecutive turns of the render loop. *)
Fixpoint runFrames (inputs : list FrameInput) : M App unit :=
  match inputs with
  | [] => ret tt
  | i :: rest => renderLoop i ;; runFrames rest
  end.

End WithEngine.

Arguments App Mesh : clear implicits.
Arguments thisPlayer {Mesh} _.
Arguments updateCamera {Mesh E} _.
Arguments updateGame {Mesh E} _.

(** ** Derived quantities used to state the properties *)

Section Observations.

Variable Mesh : Type.
Context {E : Engine Mesh}.

(** The mesh after the two rotation tests of the callback (lines 176-181). *)
Definition turned (keyStatus : KeyStatus) (p : Mesh) : Mesh :=
  let p1 :=
    if a keyStatus then rotate p Vector3.Up (- playerRotationSpeed) else p in
  if d keyStatus then rotate p1 Vector3.Up playerRotationSpeed else p1.

(** The velocity [applyGravityAndJump] moves the player by (lines 224-226). *)
Definition integratedVelocity (deltaMs : float) (st : App Mesh) : Vector3.t :=
  if isGrounded st then velocity st
  else Vector3.add (velocity st) (Vector3.scale gravity (deltaMs / 1000)).

(** The player after the collision-aware move of line 229. *)
Definition movedPlayer (deltaMs : float) (st : App Mesh) (p : Mesh) : Mesh :=
  moveWithCollisions p
    (Vector3.scale (integratedVelocity deltaMs st) (deltaMs / 1000)).

(** The landing test of line 232, on the player as the move left it. *)
Definition landed (deltaMs : float) (st : App Mesh) (p : Mesh) : bool :=
  Vector3.y (position (movedPlayer deltaMs st p)) <=? 0.1.

(** The jump impulse of lines 212-216 leaves its mark on the console. *)
Definition jumped (st st' : App Mesh) : Prop :=
  console st' = console st ++ ["Jumping"%string].

(** The test [updateGame] applies to each sphere. *)
Definition touches (p sphere : Mesh) : bool := intersectsMesh sphere p false.

(** The animation calls made between two states. *)
Definition callsSince (st st' : App Mesh) : list AnimCall :=
  skipn (List.length (animations st)) (animations st').

End Observations.

(** The mode an animation call selects: the Walking group plays at
    [runAnimSpeed] for a run and at [walkBackSpeed] for a walk. *)
Definition modeOfCall (c : AnimCall) : option LocomotionMode :=
  match c with
  | AnimStart Samba _ _ => Some Dance
  | AnimStart WalkingBack _ _ => Some WalkBackward
  | AnimStart Walking _ r =>
      Some (if r =? runAnimSpeed then RunForward else WalkForward)
  | AnimStart Idle _ _ => Some ModeIdle
  | AnimStop _ | AnimSpeedRatio _ _ => None
  end.

(** The modes selected by a frame's calls, in order. *)
Fixpoint selectedModes (calls : list AnimCall) : list LocomotionMode :=
  match calls with
  | [] => []
  | c :: rest =>
      match modeOfCall c with
      | Some m => m :: selectedModes rest
      | None => selectedModes rest
      end
  end.

(** The order of components the specification gives for a frame:
    locomotion, vertical integrator, camera, pickups. *)
Definition specifiedOrder {Mesh : Type} {E : Engine Mesh} (i : FrameInput)
  : M (App Mesh) unit :=
  sceneRender (keys i) ;;
  applyGravityAndJump (deltaMs i) ;;
  updateCamera ;;
  updateGame.

(** ** The keyboard handlers of [loadModel] (lines 124-159) *)

(** [keyStatus] as line 124 creates it. *)
Definition initialKeys : KeyStatus :=
  {| w := false; s := false; a := false; d := false; b := false;
     Shift := false; space := false |}.

(** [keyStatus[key] = v] guarded by [key in keyStatus].  A name the object
    only inherits ([constructor], say) passes the guard too, but the
    assignment then makes a property that no code reads: the seven flags
    stay as they are. *)
Definition assignKey (key : string) (v : bool) (ks : KeyStatus) : KeyStatus :=
  if (key =? "w")%string then
    {| w := v; s := s ks; a := a ks; d := d ks; b := b ks;
       Shift := Shift ks; space := space ks |}
  else if (key =? "s")%string then
    {| w := w ks; s := v; a := a ks; d := d ks; b := b ks;
       Shift := Shift ks; space := space ks |}
  else if (key =? "a")%string then
    {| w := w ks; s := s ks; a := v; d := d ks; b := b ks;
       Shift := Shift ks; space := space ks |}
  else if (key =? "d")%string then
    {| w := w ks; s := s ks; a := a ks; d := v; b := b ks;
       Shift := Shift ks; space := space ks |}
  else if (key =? "b")%string then
    {| w := w ks; s := s ks; a := a ks; d := d ks; b := v;
       Shift := Shift ks; space := space ks |}
  else if (key =? "Shift")%string then
    {| w := w ks; s := s ks; a := a ks; d := d ks; b := b ks;
       Shift := v; space := space ks |}
  else if (key =? " ")%string then
    {| w := w ks; s := s ks; a := a ks; d := d ks; b := b ks;
       Shift := Shift ks; space := v |}
  else ks.

Section KeyHandlers.

(** [String.prototype.toLowerCase], a builtin of the language. *)
Variable toLowerCase : string -> string.

(** Lines 138-141 and 151-154: every key but ['Shift'] is lowercased. *)
Definition normalizeKey (key : string) : string :=
  if (key =? "Shift")%string then key else toLowerCase key.

(** The key-down action (lines 137-146), on [event.sourceEvent.key]. *)
Definition onKeyDown (key : string) (ks : KeyStatus) : KeyStatus :=
  assignKey (normalizeKey key) true ks.

(** The key-up action (lines 150-158). *)
Definition onKeyUp (key : string) (ks : KeyStatus) : KeyStatus :=
  assignKey (normalizeKey key) false ks.

End KeyHandlers.

(** ** Animation groups as the calls leave them

    Babylon's [AnimationGroup]: [start] sets [isPlaying], [stop] clears it;
    a group that was never started is not playing. *)

Definition sameGroup (g g' : AnimationGroup) : bool :=
  match g, g' with
  | Walking, Walking | WalkingBack, WalkingBack
  | Idle, Idle | Samba, Samba => true
  | _, _ => false
  end.

Definition isPlaying (g : AnimationGroup) (calls : list AnimCall) : bool :=
  fold_left
    (fun playing c =>
       match c with
       | AnimStart g' _ _ => if sameGroup g g' then true else playing
       | AnimStop g' => if sameGroup g g' then false else playing
       | AnimSpeedRatio _ _ => playing
       end)
    calls false.

(** The mode the callback's branches select, by key state (lines 167-210):
    dance first, else backward when [s] is down without [w], else forward
    (a run under Shift), else idle. *)
Definition modeOfKeys (k : KeyStatus) : LocomotionMode :=
  if b k then Dance
  else if s k && negb (w k) then WalkBackward
  else if w k then (if Shift k then RunForward else WalkForward)
  else ModeIdle.

(** The animation calls of one run of the callback, by key state
    (lines 167-210). *)
Definition callsOfKeys (k : KeyStatus) : list AnimCall :=
  if b k then
    [AnimStop Walking; AnimStop WalkingBack; AnimStop Idle;
     AnimStart Samba true 1]
  else if s k && negb (w k) then [AnimStart WalkingBack true 1]
  else if w k then
    let r := if Shift k then runAnimSpeed else walkBackSpeed in
    [AnimSpeedRatio Walking r; AnimStart Walking true r]
  else [AnimStart Idle true 1; AnimStop Walking; AnimStop WalkingBack].

(** The speed the callback assigns before it moves the player
    (lines 187-198), by key state. *)
Definition speedOfKeys (k : KeyStatus) : float :=
  if s k && negb (w k) then - playerSpeedBackwards
  else if Shift k then playerRunSpeed else playerWalkSpeed.

(** ** Start of a session: constructor, [loadModel], [spawnCoins] *)

(** What [spawnCoins] asks of the engine: [MeshBuilder.CreateSphere] with a
    name and three diameters, and assignment to a component of
    [mesh.position]. *)
Class Builder (Mesh : Type) : Type := {
  CreateSphere : string -> float -> float -> float -> Mesh;
  setPositionX : Mesh -> float -> Mesh;
  setPositionY : Mesh -> float -> Mesh;
  setPositionZ : Mesh -> float -> Mesh
}.

(** Assigning a component of [mesh.position] changes that component of
    what [mesh.position] then reads, and only that one. *)
Class BuilderLaws (Mesh : Type) {E : Engine Mesh} {B : Builder Mesh} : Prop := {
  position_setX : forall (m : Mesh) (v : float),
    position (setPositionX m v)
    = Vector3.New v (Vector3.y (position m)) (Vector3.z (position m));
  position_setY : forall (m : Mesh) (v : float),
    position (setPositionY m v)
    = Vector3.New (Vector3.x (position m)) v (Vector3.z (position m));
  position_setZ : forall (m : Mesh) (v : float),
    position (setPositionZ m v)
    = Vector3.New (Vector3.x (position m)) (Vector3.y (position m)) v
}.

(** The template literal [`coin_${i}`]. *)
Definition coinName (i : nat) : string :=
  ("coin_" ++ NilEmpty.string_of_uint (Nat.to_uint i))%string.

(** [for (let i = from; i < from + count; i++) body(i)]. *)
Fixpoint forLoop {S : Type} (count from : nat) (body : nat -> M S unit)
  : M S unit :=
  match count with
  | O => ret tt
  | Datatypes.S count' => body from ;; forLoop count' (Datatypes.S from) body
  end.

Section Session.

Variable Mesh : Type.
Context {E : Engine Mesh} {B : Builder Mesh}.

(** The fields as the class initialisers and the constructor leave them
    (lines 20-27 and 43-49): no player yet, the camera behind the origin. *)
Definition constructed : App Mesh :=
  {| player := None;
     camera := {| cam_position := Vector3.New 0 5 (-10); cam_target := None |};
     isGrounded := true;
     velocity := Vector3.New 0 0 0;
     spheres := [];
     speed := None;
     animSpeed := None;
     animations := [];
     console := [];
     disposed := [] |}.

(** [loadModel] once the import has resolved (line 104): [model] is
    [meshes[0]] as lines 103-106 leave it.  The callback it registers is
    [onBeforeRender], run by [sceneRender]. *)
Definition modelLoaded (model : Mesh) : M (App Mesh) unit :=
  modify (with_player (Some model)).

(** The sphere the loop body builds (lines 270-278).  [random n] is what
    the [n]-th call of [Math.random] returns, counted from the start of
    [spawnCoins]: two calls for each coin, x first. *)
Definition newCoin (random : nat -> float) (i : nat) : Mesh :=
  let groundWidth := 50 in
  let groundHeight := 50 in
  let sphere := CreateSphere (coinName i) 0.2 1 0.6 in
  let sphere :=
    setPositionX sphere (random (2 * i)%nat * groundWidth - groundWidth / 2) in
  let sphere :=
    setPositionZ sphere
      (random (2 * i + 1)%nat * groundHeight - groundHeight / 2) in
  setPositionY sphere 0.25.

(** [spawnCoins] (lines 260-283): a hundred spheres pushed on
    [this.spheres]. *)
Definition spawnCoins (random : nat -> float) : M (App Mesh) unit :=
  forLoop 100 0
    (fun i =>
       modify (fun st => with_spheres (spheres st ++ [newCoin random i]) st)).

(** Line 63: [this.loadModel().then(() => this.spawnCoins())]. *)
Definition startSession (model : Mesh) (random : nat -> float)
  : M (App Mesh) unit :=
  modelLoaded model ;;
  spawnCoins random.

End Session.

Arguments constructed {Mesh}.

(** ** An engine to run the code on: a scene without obstacles *)

Module FlatWorld.

(** A mesh: where it is, where it faces, and half the size of its
    axis-aligned bounding box. *)
Record Mesh : Type := {
  name : string;
  pos : Vector3.t;
  dir : Vector3.t;
  half : Vector3.t
}.

(** Sine and cosine by their Taylor polynomials, good for the small angles
    of one frame's turn. *)
Definition sin7 (t : float) : float :=
  t - t * t * t / 6 + t * t * t * t * t / 120
    - t * t * t * t * t * t * t / 5040.

Definition cos6 (t : float) : float :=
  1 - t * t / 2 + t * t * t * t / 24 - t * t * t * t * t * t / 720.

(** A turn about the vertical axis (the only axis the code turns about). *)
Definition rotateY (m : Mesh) (axis : Vector3.t) (amount : float) : Mesh :=
  let c := cos6 amount in
  let sn := sin7 amount in
  {| name := name m; pos := pos m;
     dir := Vector3.New (Vector3.x (dir m) * c + Vector3.z (dir m) * sn)
                        (Vector3.y (dir m))
                        (Vector3.z (dir m) * c - Vector3.x (dir m) * sn);
     half := half m |}.

(** Nothing to collide with: the move is the displacement. *)
Definition freeMove (m : Mesh) (displacement : Vector3.t) : Mesh :=
  {| name := name m; pos := Vector3.add (pos m) displacement;
     dir := dir m; half := half m |}.

(** Overlap of the two bounding boxes on every axis. *)
Definition boxesOverlap (m o : Mesh) (precise : bool) : bool :=
  (abs (Vector3.x (pos m) - Vector3.x (pos o))
     <=? Vector3.x (half m) + Vector3.x (half o))
  && (abs (Vector3.y (pos m) - Vector3.y (pos o))
     <=? Vector3.y (half m) + Vector3.y (half o))
  && (abs (Vector3.z (pos m) - Vector3.z (pos o))
     <=? Vector3.z (half m) + Vector3.z (half o)).

#[export] Instance engine : Engine Mesh := {|
  position := pos;
  forward := dir;
  rotate := rotateY;
  moveWithCollisions := freeMove;
  intersectsMesh := boxesOverlap
|}.

(** The avatar at a given place, facing +Z. *)
Definition avatarAt (px py pz : float) : Mesh :=
  {| name := "HVGirl"; pos := Vector3.New px py pz;
     dir := Vector3.New 0 0 1; half := Vector3.New 0.3 0.9 0.3 |}.

(** A coin as [spawnCoins] makes it: diameters 0.2, 1, 0.6, height 0.25. *)
Definition coin (n : string) (px pz : float) : Mesh :=
  {| name := n; pos := Vector3.New px 0.25 pz;
     dir := Vector3.New 0 0 1; half := Vector3.New 0.1 0.5 0.3 |}.

Definition coins : list Mesh :=
  [coin "coin_0" 0.2 0.1; coin "coin_1" 10 (-7); coin "coin_2" (-3) 21].

(** The state the constructor leaves, before the model has loaded. *)
Definition loading : App Mesh :=
  {| player := None;
     camera := {| cam_position := Vector3.New 0 5 (-10); cam_target := None |};
     isGrounded := true;
     velocity := Vector3.New 0 0 0;
     spheres := [];
     speed := None;
     animSpeed := None;
     animations := [];
     console := [];
     disposed := [] |}.

(** The model has loaded and the coins are spawned: the avatar stands at
    the origin. *)
Definition standing : App Mesh :=
  with_spheres coins (with_player (Some (avatarAt 0 0 0)) loading).


(** The avatar coming down, just above the landing threshold. *)
Definition descending : App Mesh :=
  with_velocity (Vector3.New 0 (-3) 0)
    (with_isGrounded false
       (with_spheres coins (with_player (Some (avatarAt 0 0.12 0)) loading))).

(** The avatar going up, still below the landing threshold. *)
Definition rising : App Mesh :=
  with_velocity (Vector3.New 0 2 0)
    (with_isGrounded false
       (with_spheres coins (with_player (Some (avatarAt 0 0.01 0)) loading))).

Definition noKeys : KeyStatus :=
  {| w := false; s := false; a := false; d := false; b := false;
     Shift := false; space := false |}.

Definition jumpKey : KeyStatus :=
  {| w := false; s := false; a := false; d := false; b := false;
     Shift := false; space := true |}.

Definition danceAndJump : KeyStatus :=
  {| w := false; s := false; a := false; d := false; b := true;
     Shift := false; space := true |}.

Definition forwardAndBackward (sprint : bool) : KeyStatus :=
  {| w := true; s := true; a := false; d := true; b := false;
     Shift := sprint; space := false |}.

(** Jump held together with forward, a left turn and sprint. *)
Definition runAndJump : KeyStatus :=
  {| w := true; s := false; a := true; d := false; b := false;
     Shift := true; space := true |}.

(** Whether a turn ended with the camera aimed above ground level. *)
Definition aimsAboveGround (r : Result (unit * App Mesh)) : bool :=
  match r with
  | Ok (_, st) =>
      match cam_target (camera st) with
      | Some v => 0 <? Vector3.y v
      | None => false
      end
  | TypeError => false
  end.

(** A frame at sixty frames a second. *)
Definition at60 (k : KeyStatus) : FrameInput :=
  {| keys := k; deltaMs := 16.667 |}.

(** Lowercasing of the ASCII letters, which is what [toLowerCase] does to
    the key names of a Latin keyboard. *)
Definition lowerAscii (c : Ascii.ascii) : Ascii.ascii :=
  let n := Ascii.nat_of_ascii c in
  if ((65 <=? n) && (n <=? 90))%nat then Ascii.ascii_of_nat (n + 32) else c.

Fixpoint lower (key : string) : string :=
  match key with
  | EmptyString => EmptyString
  | String c rest => String (lowerAscii c) (lower rest)
  end.

(** A sphere at the origin; a position component is set in place. *)
#[export] Instance builder : Builder Mesh := {|
  CreateSphere := fun n dx dy dz =>
    {| name := n; pos := Vector3.New 0 0 0; dir := Vector3.New 0 0 1;
       half := Vector3.New (dx / 2) (dy / 2) (dz / 2) |};
  setPositionX := fun m v =>
    {| name := name m;
       pos := Vector3.New v (Vector3.y (pos m)) (Vector3.z (pos m));
       dir := dir m; half := half m |};
  setPositionY := fun m v =>
    {| name := name m;
       pos := Vector3.New (Vector3.x (pos m)) v (Vector3.z (pos m));
       dir := dir m; half := half m |};
  setPositionZ := fun m v =>
    {| name := name m;
       pos := Vector3.New (Vector3.x (pos m)) (Vector3.y (pos m)) v;
       dir := dir m; half := half m |}
|}.

(** A stand-in for [Math.random]: the draws cycle through a few values of
    [0, 1), the largest binary64 number below 1 among them. *)
Definition draws (n : nat) : float :=
  match Nat.modulo n 5 with
  | O => 0
  | 1%nat => 0.5
  | 2%nat => 0x1.fffffffffffffp-1
  | 3%nat => 0.504
  | _ => 0.25
  end.

End FlatWorld.

(** * Properties *)

(** ** Binary64 facts

    [updateCamera] adds the forward axis scaled by [-followDistance]; in
    binary64 that is the same number as subtracting the axis scaled by
    [followDistance]. *)

Module FloatFacts.

Lemma SFadd_opp (u v : spec_float) :
  SFadd prec emax u (SFopp v) = SFsub prec emax u v.
Proof.
  destruct u as [[|]| [|] | | [|] mu eu], v as [[|]| [|] | | [|] mv ev];
    reflexivity.
Qed.

Lemma binary_round_aux_negb (sg : bool) (m e : Z) (l : location) :
  binary_round_aux prec emax (negb sg) m e l
  = SFopp (binary_round_aux prec emax sg m e l).
Proof.
  unfold binary_round_aux.
  destruct (shr_fexp prec emax m e l) as [r1 e1].
  destruct (shr_fexp prec emax _ e1 loc_Exact) as [r2 e2].
  destruct (shr_m r2); try reflexivity.
  destruct (Z.leb e2 (emax - prec)); reflexivity.
Qed.

Lemma SFmul_opp_r (u v : spec_float) :
  SFmul prec emax u (SFopp v) = SFopp (SFmul prec emax u v).
Proof.
  destruct u as [su| su | | su mu eu], v as [sv| sv | | sv mv ev];
    simpl; try reflexivity;
    try (destruct su, sv; reflexivity).
  rewrite <- binary_round_aux_negb. destruct su, sv; reflexivity.
Qed.

Lemma add_scaled_opp (u f k : float) : u + f * (- k) = u - f * k.
Proof.
  apply Prim2SF_inj.
  rewrite add_spec, sub_spec, !mul_spec, opp_spec.
  unfold SF64add, SF64sub, SF64mul.
  rewrite SFmul_opp_r. apply SFadd_opp.
Qed.

(** The same with the literal [-10] of the camera rule. *)
Lemma add_scaled_minus_ten (u f : float) : u + f * (-10) = u - f * 10.
Proof. exact (add_scaled_opp u f 10). Qed.

End FloatFacts.

Section Theory.

Variable Mesh : Type.
Context {E : Engine Mesh}.
Implicit Types (st : App Mesh) (p : Mesh) (k : KeyStatus) (i : FrameInput).

(** *** What each method does to the state *)

Lemma updateCamera_absent st :
  player st = None -> updateCamera st = Ok (tt, st).
Proof.
  intros Hp. unfold updateCamera, bind, gets. rewrite Hp. reflexivity.
Qed.

Lemma updateCamera_present st p :
  player st = Some p ->
  updateCamera st =
  Ok (tt, with_camera
            {| cam_position :=
                 Vector3.New
                   (Vector3.x (position p) + Vector3.x (forward p) * (-10))
                   5
                   (Vector3.z (position p) + Vector3.z (forward p) * (-10));
               cam_target := Some (position p) |} st).
Proof.
  intros Hp. destruct st; cbn in Hp; subst. reflexivity.
Qed.

Lemma applyGravityAndJump_absent (dt : float) st :
  player st = None -> applyGravityAndJump dt st = Ok (tt, st).
Proof.
  intros Hp. unfold applyGravityAndJump, bind, gets. rewrite Hp. reflexivity.
Qed.

Lemma applyGravityAndJump_present (dt : float) st p :
  player st = Some p ->
  applyGravityAndJump dt st =
  Ok (tt,
      let st1 := with_player (Some (movedPlayer dt st p))
                   (with_velocity (integratedVelocity dt st) st) in
      if landed dt st p
      then with_velocity (Vector3.setY (integratedVelocity dt st) 0)
             (with_isGrounded true st1)
      else st1).
Proof.
  intros Hp.
  destruct st as [pl cam g v sp spd asp an con dis]; cbn in Hp; subst.
  unfold applyGravityAndJump, landed, movedPlayer, integratedVelocity.
  destruct g; cbn; destruct (_ <=? _); reflexivity.
Qed.

Lemma updateGame_absent st :
  player st = None -> updateGame st = Ok (tt, st).
Proof.
  intros Hp. unfold updateGame, bind, gets. rewrite Hp. reflexivity.
Qed.

(** The sweep visits every sphere once: the kept ones are the spheres that
    do not touch the player, in their order, and the touched ones are
    disposed of, in their order. *)
Lemma sweep_filter p (l : list Mesh) : forall st,
  player st = Some p ->
  filterM (fun sphere =>
             q <- thisPlayer ;;
             if intersectsMesh sphere q false then
               dispose sphere ;; ret false
             else ret true) l st
  = Ok (filter (fun c => negb (touches p c)) l,
        with_disposed (disposed st ++ filter (touches p) l) st).
Proof.
  induction l as [|c l IH];
    intros [pl cam g v sp spd asp an con dis] Hp; cbn in Hp; subst pl.
  - cbn. rewrite app_nil_r. reflexivity.
  - cbn [filterM filter].
    change (touches p c) with (intersectsMesh c p false).
    unfold bind at 1. unfold bind at 1. cbn [thisPlayer player].
    destruct (intersectsMesh c p false) eqn:Hc; cbn [negb].
    + unfold bind at 1. cbn [dispose modify with_disposed disposed].
      unfold ret at 1. unfold bind at 1.
      rewrite IH by reflexivity. cbn. rewrite <- app_assoc. reflexivity.
    + unfold ret at 1. unfold bind at 1.
      rewrite IH by reflexivity. reflexivity.
Qed.

Lemma updateGame_present st p :
  player st = Some p ->
  updateGame st =
  Ok (tt, with_spheres (filter (fun c => negb (touches p c)) (spheres st))
            (with_disposed (disposed st ++ filter (touches p) (spheres st))
               st)).
Proof.
  intros Hp. unfold updateGame, bind at 1, gets at 1. rewrite Hp.
  unfold bind at 1, gets at 1. unfold bind at 1.
  rewrite (sweep_filter (spheres st) st Hp). reflexivity.
Qed.

Lemma onBeforeRender_dance k st :
  b k = true ->
  onBeforeRender k st =
  Ok (tt, with_animations
            (animations st ++
               [AnimStop Walking; AnimStop WalkingBack; AnimStop Idle;
                AnimStart Samba true 1]) st).
Proof.
  intros Hb. unfold onBeforeRender. rewrite Hb.
  destruct st; unfold animCall, modify, bind; cbn.
  rewrite <- !app_assoc. reflexivity.
Qed.

(** Without the dance key the callback turns the mesh, moves it when a
    movement key is down, and applies the jump impulse exactly when the jump
    key is down and the avatar is grounded. *)
Lemma onBeforeRender_effect k st p :
  player st = Some p -> b k = false ->
  exists st',
    onBeforeRender k st = Ok (tt, st') /\
    camera st' = camera st /\ spheres st' = spheres st /\
    disposed st' = disposed st /\
    speed st' =
      (if s k && negb (w k) then Some (- playerSpeedBackwards)
       else if w k
            then Some (if Shift k then playerRunSpeed else playerWalkSpeed)
            else speed st) /\
    player st' =
      Some (if w k || s k
            then moveWithCollisions (turned k p)
                   (Vector3.scale (forward (turned k p))
                      (toNumber (speed st')))
            else turned k p) /\
    (if space k && isGrounded st
     then jumped st st' /\
          velocity st' = Vector3.setY (velocity st) jumpForce /\
          isGrounded st' = false
     else console st' = console st /\ velocity st' = velocity st /\
          isGrounded st' = isGrounded st).
Proof.
  intros Hp Hb.
  destruct st as [pl cam g v sp spd asp an con dis]; cbn in Hp; subst pl.
  destruct k as [kw ks ka kd kb ksh ksp]; cbn in Hb; subst kb.
  unfold jumped, turned.
  destruct kw, ks, ka, kd, ksh, ksp, g;
    (eexists; split; [lazy -[app]; reflexivity | repeat split; reflexivity]).
Qed.

Lemma sceneRender_absent k st :
  player st = None -> sceneRender k st = Ok (tt, st).
Proof.
  intros Hp. unfold sceneRender, bind, gets. rewrite Hp. reflexivity.
Qed.

Lemma sceneRender_present k st p :
  player st = Some p -> sceneRender k st = onBeforeRender k st.
Proof.
  intros Hp. unfold sceneRender, bind, gets. rewrite Hp. reflexivity.
Qed.

Lemma renderLoop_steps i st st1 st2 st3 r :
  sceneRender (keys i) st = Ok (tt, st1) ->
  updateCamera st1 = Ok (tt, st2) ->
  applyGravityAndJump (deltaMs i) st2 = Ok (tt, st3) ->
  updateGame st3 = r ->
  renderLoop i st = r.
Proof.
  intros H1 H2 H3 H4. unfold renderLoop, bind.
  rewrite H1, H2, H3. exact H4.
Qed.

(** The three methods of the render loop, by what they leave behind. *)
Lemma updateCamera_run st p :
  player st = Some p ->
  exists st',
    updateCamera st = Ok (tt, st') /\
    player st' = Some p /\ isGrounded st' = isGrounded st /\
    velocity st' = velocity st /\ spheres st' = spheres st /\
    console st' = console st /\
    camera st' =
      {| cam_position :=
           Vector3.New
             (Vector3.x (position p) + Vector3.x (forward p) * (-10))
             5
             (Vector3.z (position p) + Vector3.z (forward p) * (-10));
         cam_target := Some (position p) |}.
Proof.
  intros Hp. eexists. split; [apply updateCamera_present, Hp |].
  destruct st; cbn in *. repeat split. exact Hp.
Qed.

Lemma applyGravityAndJump_run (dt : float) st p :
  player st = Some p ->
  exists st',
    applyGravityAndJump dt st = Ok (tt, st') /\
    player st' = Some (movedPlayer dt st p) /\
    isGrounded st' = (landed dt st p || isGrounded st) /\
    velocity st' =
      (if landed dt st p
       then Vector3.setY (integratedVelocity dt st) 0
       else integratedVelocity dt st) /\
    spheres st' = spheres st /\ console st' = console st /\
    camera st' = camera st.
Proof.
  intros Hp. eexists. split; [apply applyGravityAndJump_present, Hp |].
  cbv zeta. destruct (landed dt st p); destruct st; repeat split.
Qed.

Lemma updateGame_run st p :
  player st = Some p ->
  exists st',
    updateGame st = Ok (tt, st') /\
    player st' = Some p /\ isGrounded st' = isGrounded st /\
    velocity st' = velocity st /\ console st' = console st /\
    camera st' = camera st /\
    spheres st' = filter (fun c => negb (touches p c)) (spheres st) /\
    disposed st' = disposed st ++ filter (touches p) (spheres st).
Proof.
  intros Hp. eexists. split; [apply updateGame_present, Hp |].
  destruct st; cbn in *. repeat split. exact Hp.
Qed.

(** The callback keeps the player present. *)
Lemma sceneRender_run k st p :
  player st = Some p ->
  exists st1 p1,
    sceneRender k st = Ok (tt, st1) /\ player st1 = Some p1 /\
    spheres st1 = spheres st /\ camera st1 = camera st.
Proof.
  intros Hp. rewrite (sceneRender_present _ _ Hp).
  destruct (b k) eqn:Hb.
  - rewrite (onBeforeRender_dance _ st Hb). eexists; exists p.
    split; [reflexivity | destruct st; repeat split; exact Hp].
  - destruct (onBeforeRender_effect _ _ Hp Hb)
      as (st1 & Hrun & Hcam & Hsph & _ & _ & Hpl & _).
    eexists; eexists; split; [exact Hrun |].
    split; [exact Hpl |]. split; assumption.
Qed.

Lemma movedPlayer_ext (dt : float) st st' p :
  isGrounded st' = isGrounded st -> velocity st' = velocity st ->
  movedPlayer dt st' p = movedPlayer dt st p /\
  landed dt st' p = landed dt st p /\
  integratedVelocity dt st' = integratedVelocity dt st.
Proof.
  intros Hg Hv. unfold landed, movedPlayer, integratedVelocity.
  rewrite Hg, Hv. repeat split.
Qed.

(** One turn of the render loop with a player present: the callback runs
    first; the camera is placed from the player as the callback left it; the
    integrator then moves the player; the sweep tests the spheres against
    the moved player. *)
Lemma renderLoop_present i st p :
  player st = Some p ->
  exists st1 p1 st',
    sceneRender (keys i) st = Ok (tt, st1) /\ player st1 = Some p1 /\
    renderLoop i st = Ok (tt, st') /\
    player st' = Some (movedPlayer (deltaMs i) st1 p1) /\
    camera st' =
      {| cam_position :=
           Vector3.New
             (Vector3.x (position p1) + Vector3.x (forward p1) * (-10))
             5
             (Vector3.z (position p1) + Vector3.z (forward p1) * (-10));
         cam_target := Some (position p1) |} /\
    isGrounded st' = (landed (deltaMs i) st1 p1 || isGrounded st1) /\
    velocity st' =
      (if landed (deltaMs i) st1 p1
       then Vector3.setY (integratedVelocity (deltaMs i) st1) 0
       else integratedVelocity (deltaMs i) st1) /\
    console st' = console st1 /\
    spheres st' =
      filter (fun c => negb (touches (movedPlayer (deltaMs i) st1 p1) c))
        (spheres st).
Proof.
  intros Hp.
  destruct (sceneRender_run (keys i) st Hp)
    as (st1 & p1 & Hrun & Hp1 & Hs1 & _).
  destruct (updateCamera_run st1 Hp1)
    as (st2 & Hcam & Hp2 & Hg2 & Hv2 & Hs2 & Hc2 & Hcam2).
  destruct (applyGravityAndJump_run (deltaMs i) st2 Hp2)
    as (st3 & Hint & Hp3 & Hg3 & Hv3 & Hs3 & Hc3 & Hcam3).
  destruct (updateGame_run st3 Hp3)
    as (st4 & Hgame & Hp4 & Hg4 & Hv4 & Hc4 & Hcam4 & Hs4 & _).
  destruct (movedPlayer_ext (deltaMs i) st1 st2 p1 Hg2 Hv2)
    as (Em & El & Ev).
  exists st1, p1, st4.
  split; [exact Hrun |]. split; [exact Hp1 |].
  split; [exact (renderLoop_steps i st Hrun Hcam Hint Hgame) |].
  rewrite Hp4, Hcam4, Hcam3, Hcam2, Hg4, Hg3, Hv4, Hv3, Hc4, Hc3, Hc2, Hs4,
    Hs3, Hs2, Hs1, Em, El, Ev, Hg2.
  repeat split.
Qed.

(** Every turn of the render loop finishes: no method reads a property of
    an absent player. *)
Lemma renderLoop_total i st :
  exists st', renderLoop i st = Ok (tt, st') /\
    (player st = None -> st' = st) /\
    (forall p, player st = Some p -> exists p', player st' = Some p').
Proof.
  destruct (player st) as [p|] eqn:Hp.
  - destruct (renderLoop_present i st Hp)
      as (st1 & p1 & st' & _ & _ & Hrun & Hp' & _).
    exists st'. split; [exact Hrun |]. split; [discriminate |].
    intros q _. eexists. exact Hp'.
  - exists st. split; [| split; [reflexivity | discriminate]].
    eapply renderLoop_steps.
    + apply sceneRender_absent. exact Hp.
    + apply updateCamera_absent. exact Hp.
    + apply applyGravityAndJump_absent. exact Hp.
    + apply updateGame_absent. exact Hp.
Qed.

Lemma skipn_length_app (A : Type) (l l' : list A) :
  skipn (List.length l) (l ++ l') = l'.
Proof. induction l as [|h l IH]; [reflexivity | exact IH]. Qed.


(** The impulse of lines 212-216, when its test passes. *)
Lemma sceneRender_jump k st p :
  player st = Some p -> b k = false -> space k = true ->
  isGrounded st = true ->
  exists st',
    sceneRender k st = Ok (tt, st') /\
    Vector3.y (velocity st') = jumpForce /\ isGrounded st' = false /\
    jumped st st'.
Proof.
  intros Hp Hb Hsp Hg. rewrite (sceneRender_present _ _ Hp).
  destruct (onBeforeRender_effect _ _ Hp Hb)
    as (st' & Hrun & _ & _ & _ & _ & _ & Hjump).
  exists st'. split; [exact Hrun |].
  rewrite Hsp, Hg in Hjump. destruct Hjump as (Hj & Hv & Hg').
  rewrite Hv. destruct (velocity st). repeat split; assumption.
Qed.

(** *** The claims *)

(** C3.  In a frame without a player (the model has not loaded, or never
    will), the vertical integrator, the camera rule and the pickup sweep each
    finish without a fault and leave the whole state as it was; so does the
    whole turn of the render loop. *)
Theorem no_avatar_no_op (dt : float) i st :
  player st = None ->
  applyGravityAndJump dt st = Ok (tt, st) /\
  updateCamera st = Ok (tt, st) /\
  updateGame st = Ok (tt, st) /\
  renderLoop i st = Ok (tt, st).
Proof.
  intros Hp. repeat split.
  - apply applyGravityAndJump_absent, Hp.
  - apply updateCamera_absent, Hp.
  - apply updateGame_absent, Hp.
  - destruct (renderLoop_total i st) as (st' & Hrun & Hsame & _).
    rewrite (Hsame Hp) in Hrun. exact Hrun.
Qed.

(** C9.  With a player present, [updateCamera] puts the camera at the
    player's position minus its forward axis times the follow distance 10,
    with the vertical component replaced by the camera height 5, and aims it
    at the player's position; for a player at the origin facing +Z that is
    the position (0, 5, -10) and the target (0, 0, 0). *)
Theorem camera_follows_avatar st p :
  player st = Some p ->
  exists st',
    updateCamera st = Ok (tt, st') /\
    cam_position (camera st') =
      Vector3.New (Vector3.x (position p) - Vector3.x (forward p) * 10)
                  5
                  (Vector3.z (position p) - Vector3.z (forward p) * 10) /\
    cam_target (camera st') = Some (position p) /\
    (position p = Vector3.New 0 0 0 -> forward p = Vector3.New 0 0 1 ->
     cam_position (camera st') = Vector3.New 0 5 (-10)) /\
    (position p = Vector3.New 0 0 0 -> forward p = Vector3.New 0 0 1 ->
     cam_target (camera st') = Some (Vector3.New 0 0 0)).
Proof.
  intros Hp. eexists. split; [apply updateCamera_present, Hp |].
  destruct st; cbn [camera with_camera cam_position cam_target].
  rewrite !FloatFacts.add_scaled_minus_ten.
  repeat split; try reflexivity.
  - intros Hpos Hfwd. rewrite Hpos, Hfwd. reflexivity.
  - intros Hpos _. rewrite Hpos. reflexivity.
Qed.

(** C4.  With a player present, whenever the player's height after the
    integrator's collision-aware move is at most 0.1 (in particular when it
    got there falling), [applyGravityAndJump] ends that same call with the
    grounded flag set and the vertical velocity exactly 0. *)
Theorem landing_zeroes_velocity (dt : float) st p :
  player st = Some p ->
  landed dt st p = true ->
  exists st',
    applyGravityAndJump dt st = Ok (tt, st') /\
    player st' = Some (movedPlayer dt st p) /\
    isGrounded st' = true /\
    Vector3.y (velocity st') = 0.
Proof.
  intros Hp Hland. eexists.
  split; [apply applyGravityAndJump_present, Hp |].
  cbv zeta. rewrite Hland. destruct st; repeat split; reflexivity.
Qed.

(** C6.  When the dance key is down the callback stops the three other
    animations, starts the dance and returns: the state is the one it was
    but for those four animation calls, so the player mesh is the one it was
    (no turn, no move), whatever the other keys are. *)
Theorem dance_is_exclusive k st :
  b k = true ->
  exists st',
    onBeforeRender k st = Ok (tt, st') /\
    st' =
      with_animations
        (animations st ++
           [AnimStop Walking; AnimStop WalkingBack; AnimStop Idle;
            AnimStart Samba true 1]) st /\
    player st' = player st /\
    speed st' = speed st /\
    velocity st' = velocity st /\
    isGrounded st' = isGrounded st /\
    selectedModes (callsSince st st') = [Dance].
Proof.
  intros Hb. eexists. split; [apply onBeforeRender_dance, Hb |].
  split; [reflexivity |].
  unfold callsSince. destruct st; cbn [player speed velocity isGrounded
    animations with_animations].
  rewrite skipn_length_app. repeat split.
Qed.

(** C7.  With forward and backward both down (and no dance) the forward
    branch runs: the speed is the run speed under the sprint modifier and the
    walk speed otherwise, the player is moved along its forward axis by that
    speed, the Walking animation is the one started and the mode selected is
    RunForward or WalkForward, never WalkBackward. *)
Theorem forward_beats_backward k st p :
  player st = Some p -> b k = false -> w k = true -> s k = true ->
  exists st',
    onBeforeRender k st = Ok (tt, st') /\
    speed st' = Some (if Shift k then playerRunSpeed else playerWalkSpeed) /\
    player st' =
      Some (moveWithCollisions (turned k p)
              (Vector3.scale (forward (turned k p))
                 (if Shift k then playerRunSpeed else playerWalkSpeed))) /\
    selectedModes (callsSince st st') =
      [if Shift k then RunForward else WalkForward] /\
    ~ In WalkBackward (selectedModes (callsSince st st')).
Proof.
  intros Hp Hb Hw Hs.
  destruct st as [pl cam g v sp spd asp an con dis]; cbn in Hp; subst pl.
  destruct k as [kw ks ka kd kb ksh ksp]; cbn in Hb, Hw, Hs; subst kb kw ks.
  unfold callsSince, turned.
  destruct ka, kd, ksh, ksp, g;
    (eexists; split; [lazy -[app]; reflexivity |];
     cbn [player speed animations Shift a d];
     rewrite <- ?app_assoc, skipn_length_app;
     repeat split; try reflexivity;
     lazy; intros [H|[]]; discriminate H).
Qed.


(** C1, as the code has it.  With the jump key down and the avatar
    grounded, the callback applies the impulse (vertical velocity
    [jumpForce], grounded flag cleared) whichever of the forward, backward,
    turn and sprint keys are down, provided the dance key is not; with the
    dance key down it returns before the jump test and velocity, flag and
    console are as they were. *)
Theorem jump_unless_dancing k st p :
  player st = Some p -> space k = true -> isGrounded st = true ->
  exists st',
    sceneRender k st = Ok (tt, st') /\
    if b k
    then velocity st' = velocity st /\ isGrounded st' = true /\
         console st' = console st
    else Vector3.y (velocity st') = jumpForce /\ isGrounded st' = false /\
         jumped st st'.
Proof.
  intros Hp Hsp Hg.
  destruct (b k) eqn:Hb.
  - rewrite (sceneRender_present _ _ Hp).
    eexists. split; [apply onBeforeRender_dance, Hb |].
    destruct st; cbn in *. repeat split. exact Hg.
  - exact (sceneRender_jump k st Hp Hb Hsp Hg).
Qed.

(** C2, as the code has it.  A turn of the render loop runs the callback
    (locomotion), then the camera rule, then the vertical integrator, then
    the pickup sweep.  With a player present: the camera is placed behind,
    and aimed at, the player as the callback left it, before the integrator
    moves it; the sweep tests the spheres against the player as the
    integrator left it. *)
Theorem camera_before_integrator i st :
  renderLoop i st =
    (sceneRender (keys i) ;; updateCamera ;;
     applyGravityAndJump (deltaMs i) ;; updateGame) st /\
  forall p, player st = Some p ->
    exists st1 p1 st',
      sceneRender (keys i) st = Ok (tt, st1) /\ player st1 = Some p1 /\
      renderLoop i st = Ok (tt, st') /\
      cam_target (camera st') = Some (position p1) /\
      cam_position (camera st') =
        Vector3.New (Vector3.x (position p1) - Vector3.x (forward p1) * 10)
                    5
                    (Vector3.z (position p1) - Vector3.z (forward p1) * 10) /\
      player st' = Some (movedPlayer (deltaMs i) st1 p1) /\
      spheres st' =
        filter (fun c => negb (touches (movedPlayer (deltaMs i) st1 p1) c))
          (spheres st).
Proof.
  split; [reflexivity |]. intros p Hp.
  destruct (renderLoop_present i st Hp)
    as (st1 & p1 & st' & Hcb & Hp1 & Hrun & Hp' & Hcam & _ & _ & _ & Hsph).
  exists st1, p1, st'. rewrite Hcam. cbn [cam_target cam_position].
  rewrite !FloatFacts.add_scaled_minus_ten. repeat split; assumption.
Qed.

(** The spheres after one turn: those of before that the player, as the
    turn left it, does not touch. *)
Lemma renderLoop_spheres i st :
  exists st',
    renderLoop i st = Ok (tt, st') /\
    (forall p', player st' = Some p' ->
       spheres st' = filter (fun c => negb (touches p' c)) (spheres st)) /\
    (player st' = None -> spheres st' = spheres st).
Proof.
  destruct (player st) as [p|] eqn:Hp.
  - destruct (renderLoop_present i st Hp)
      as (st1 & p1 & st' & _ & _ & Hrun & Hp' & _ & _ & _ & _ & Hsph).
    exists st'. split; [exact Hrun |]. split.
    + intros p' Hq. rewrite Hp' in Hq. injection Hq as <-. exact Hsph.
    + rewrite Hp'. discriminate.
  - destruct (renderLoop_total i st) as (st' & Hrun & Hsame & _).
    exists st'. rewrite (Hsame Hp). rewrite (Hsame Hp) in Hrun.
    split; [exact Hrun |]. split; [| reflexivity].
    intros p' Hq. rewrite Hp in Hq. discriminate.
Qed.

(** No turn adds a sphere. *)
Lemma runFrames_shrinks (inputs : list FrameInput) : forall st,
  exists st',
    runFrames inputs st = Ok (tt, st') /\
    incl (spheres st') (spheres st) /\
    (List.length (spheres st') <= List.length (spheres st))%nat.
Proof.
  induction inputs as [|i rest IH]; intros st.
  - exists st. split; [reflexivity |]. split; [apply incl_refl | lia].
  - destruct (renderLoop_spheres i st) as (st1 & Hrun & Hsome & Hnone).
    destruct (IH st1) as (st' & Hrest & Hincl & Hlen).
    exists st'. split.
    + cbn [runFrames]. unfold bind. rewrite Hrun. exact Hrest.
    + destruct (player st1) as [p1|] eqn:Hp1.
      * rewrite (Hsome p1 eq_refl) in Hincl, Hlen. split.
        -- intros c Hc. apply Hincl in Hc. apply filter_In in Hc.
           exact (proj1 Hc).
        -- pose proof (filter_length_le
                         (fun c => negb (touches p1 c)) (spheres st)).
           lia.
      * rewrite (Hnone eq_refl) in Hincl, Hlen. split; assumption.
Qed.

(** C8.  Across a turn of the render loop the count of live spheres does
    not grow; the new collection is the old one filtered (every sphere is
    tested once, the ones the player does not touch are kept in order, the
    array is replaced, not edited in place); and a sphere the player touches
    in a turn is out of the collection after that turn and after any number
    of further turns. *)
Theorem pickups_only_shrink i st :
  exists st',
    renderLoop i st = Ok (tt, st') /\
    (List.length (spheres st') <= List.length (spheres st))%nat /\
    (forall p', player st' = Some p' ->
       spheres st' = filter (fun c => negb (touches p' c)) (spheres st)) /\
    (forall p' c, player st' = Some p' -> In c (spheres st) ->
       touches p' c = true ->
       forall later : list FrameInput,
       exists st'',
         runFrames later st' = Ok (tt, st'') /\
         ~ In c (spheres st'') /\
         (List.length (spheres st'') <= List.length (spheres st'))%nat).
Proof.
  destruct (renderLoop_spheres i st) as (st' & Hrun & Hsome & Hnone).
  exists st'. split; [exact Hrun |]. split; [| split].
  - destruct (player st') as [p'|].
    + rewrite (Hsome p' eq_refl). apply filter_length_le.
    + rewrite (Hnone eq_refl). lia.
  - exact Hsome.
  - intros p' c Hp' Hin Htouch later.
    destruct (runFrames_shrinks later st') as (st'' & Hlater & Hincl & Hlen).
    exists st''. split; [exact Hlater |]. split; [| exact Hlen].
    intros Hc. apply Hincl in Hc. rewrite (Hsome p' Hp') in Hc.
    apply filter_In in Hc. destruct Hc as [_ Hkeep].
    rewrite Htouch in Hkeep. discriminate.
Qed.

(** C10.  The landing test reads the height only.  With a player present,
    [applyGravityAndJump] sets the grounded flag and zeroes the vertical
    velocity exactly when the height after its move is at most 0.1, whatever
    the sign of the velocity; so when a frame applies the jump impulse
    (grounded, jump key down, no dance) and the integrator's move of that
    frame leaves the height at most 0.1, the frame ends grounded with
    vertical velocity 0: the impulse is cancelled. *)
Theorem landing_ignores_direction i st p :
  player st = Some p ->
  (forall dt : float,
   exists st',
     applyGravityAndJump dt st = Ok (tt, st') /\
     isGrounded st' = (landed dt st p || isGrounded st) /\
     Vector3.y (velocity st') =
       (if landed dt st p then 0
        else Vector3.y (integratedVelocity dt st))) /\
  (b (keys i) = false -> space (keys i) = true -> isGrounded st = true ->
   exists st1 p1 st',
     sceneRender (keys i) st = Ok (tt, st1) /\ jumped st st1 /\
     Vector3.y (velocity st1) = jumpForce /\ isGrounded st1 = false /\
     player st1 = Some p1 /\
     renderLoop i st = Ok (tt, st') /\
     player st' = Some (movedPlayer (deltaMs i) st1 p1) /\
     (landed (deltaMs i) st1 p1 = true ->
      isGrounded st' = true /\ Vector3.y (velocity st') = 0)).
Proof.
  intros Hp. split.
  - intros dt.
    destruct (applyGravityAndJump_run dt st Hp)
      as (st' & Hrun & _ & Hg & Hv & _).
    exists st'. split; [exact Hrun |]. split; [exact Hg |].
    rewrite Hv. destruct (landed dt st p); reflexivity.
  - intros Hb Hsp Hg.
    destruct (renderLoop_present i st Hp)
      as (st1 & p1 & st' & Hcb & Hp1 & Hrun & Hp' & _ & Hg' & Hv' & _).
    destruct (sceneRender_jump (keys i) st Hp Hb Hsp Hg)
      as (st1' & Hcb' & Hvy & Hg1 & Hj).
    rewrite Hcb in Hcb'. injection Hcb' as <-.
    exists st1, p1, st'.
    repeat (split; [assumption |]).
    intros Hland. rewrite Hg', Hv', Hland. split; reflexivity.
Qed.

End Theory.

(** * Beyond the claims: handlers, session start, sessions of frames *)

Section KeyTheory.

Variable toLowerCase : string -> string.

Lemma assignKey_twice (key : string) (v1 v2 : bool) (ks : KeyStatus) :
  assignKey key v2 (assignKey key v1 ks) = assignKey key v2 ks.
Proof.
  unfold assignKey.
  repeat (destruct (_ =? _)%string; [reflexivity |]). reflexivity.
Qed.

Lemma assignKey_comm (n1 n2 : string) (v1 v2 : bool) (ks : KeyStatus) :
  n1 <> n2 ->
  assignKey n1 v1 (assignKey n2 v2 ks) = assignKey n2 v2 (assignKey n1 v1 ks).
Proof.
  intros Hne. unfold assignKey.
  repeat match goal with
         | |- context [(?u =? ?v)%string] =>
             destruct (String.eqb_spec u v); subst
         end;
    try reflexivity; try congruence.
Qed.

(** X1.  For one key the last event decides: a release after a press
    leaves what the release alone would, a press after a release what the
    press alone would, and a repeated press (key auto-repeat) changes
    nothing more. *)
Theorem key_last_event_wins (key : string) (ks : KeyStatus) :
  onKeyUp toLowerCase key (onKeyDown toLowerCase key ks)
    = onKeyUp toLowerCase key ks /\
  onKeyDown toLowerCase key (onKeyUp toLowerCase key ks)
    = onKeyDown toLowerCase key ks /\
  onKeyDown toLowerCase key (onKeyDown toLowerCase key ks)
    = onKeyDown toLowerCase key ks.
Proof.
  unfold onKeyUp, onKeyDown. repeat split; apply assignKey_twice.
Qed.

(** X2.  Events of two keys that normalise to different names commute:
    the key states after a press of one and a release (or press) of the
    other do not depend on the order in which the two events arrive. *)
Theorem key_events_commute (k1 k2 : string) (ks : KeyStatus) :
  normalizeKey toLowerCase k1 <> normalizeKey toLowerCase k2 ->
  onKeyDown toLowerCase k1 (onKeyUp toLowerCase k2 ks)
    = onKeyUp toLowerCase k2 (onKeyDown toLowerCase k1 ks) /\
  onKeyDown toLowerCase k1 (onKeyDown toLowerCase k2 ks)
    = onKeyDown toLowerCase k2 (onKeyDown toLowerCase k1 ks) /\
  onKeyUp toLowerCase k1 (onKeyUp toLowerCase k2 ks)
    = onKeyUp toLowerCase k2 (onKeyUp toLowerCase k1 ks).
Proof.
  intros Hne. unfold onKeyUp, onKeyDown.
  repeat split; apply assignKey_comm; exact Hne.
Qed.

(** X3.  The sprint flag answers to the exact name ['Shift'] only: since
    lowercasing never yields a capital S, no other key name, whatever its
    case, changes it; while a movement, dance or jump key sets its flag in
    either case, so the capital letters typed with Shift held still steer. *)
Theorem shift_is_case_sensitive (key : string) (ks : KeyStatus) :
  (forall k : string, toLowerCase k <> "Shift"%string) ->
  key <> "Shift"%string ->
  Shift (onKeyDown toLowerCase key ks) = Shift ks /\
  Shift (onKeyUp toLowerCase key ks) = Shift ks /\
  (toLowerCase key = "w"%string -> w (onKeyDown toLowerCase key ks) = true) /\
  (toLowerCase key = "s"%string -> s (onKeyDown toLowerCase key ks) = true) /\
  (toLowerCase key = "a"%string -> a (onKeyDown toLowerCase key ks) = true) /\
  (toLowerCase key = "d"%string -> d (onKeyDown toLowerCase key ks) = true) /\
  (toLowerCase key = "b"%string -> b (onKeyDown toLowerCase key ks) = true) /\
  (toLowerCase key = " "%string ->
   space (onKeyDown toLowerCase key ks) = true).
Proof.
  intros Hlow Hkey. unfold onKeyDown, onKeyUp, normalizeKey.
  destruct (String.eqb_spec key "Shift") as [Heq | _]; [contradiction |].
  pose proof (Hlow key) as Hn.
  repeat split; try (intros Hname; rewrite Hname; reflexivity);
    unfold assignKey;
    (destruct (String.eqb_spec (toLowerCase key) "Shift") as [Heq | _];
     [contradiction |]);
    repeat (destruct (_ =? _)%string; [reflexivity |]); reflexivity.
Qed.

End KeyTheory.

Section SessionTheory.

Variable Mesh : Type.
Context {E : Engine Mesh} {B : Builder Mesh}.
Implicit Types (st : App Mesh) (p : Mesh) (k : KeyStatus) (i : FrameInput).

(** *** The callback, by key state *)

Lemma onBeforeRender_calls k st p :
  player st = Some p ->
  exists st',
    onBeforeRender k st = Ok (tt, st') /\
    animations st' = animations st ++ callsOfKeys k.
Proof.
  intros Hp.
  destruct st as [pl cam g v sp spd asp an con dis]; cbn in Hp; subst pl.
  destruct k as [kw ks ka kd kb ksh ksp].
  destruct kb, kw, ks, ka, kd, ksh, ksp, g;
    (eexists; split; [lazy -[app]; reflexivity |];
     cbn [animations]; rewrite <- ?app_assoc; reflexivity).
Qed.

Lemma isPlaying_app (g : AnimationGroup) (l l' : list AnimCall) :
  isPlaying g (l ++ l') =
  fold_left
    (fun playing c =>
       match c with
       | AnimStart g' _ _ => if sameGroup g g' then true else playing
       | AnimStop g' => if sameGroup g g' then false else playing
       | AnimSpeedRatio _ _ => playing
       end)
    l' (isPlaying g l).
Proof. unfold isPlaying. apply fold_left_app. Qed.

(** X4.  Every run of the callback starts exactly one animation, the one
    of the mode its branches select: Dance with the dance key down, else
    WalkBackward with backward down and forward up, else RunForward or
    WalkForward with forward down (by the sprint key), else Idle. *)
Theorem one_mode_per_frame k st p :
  player st = Some p ->
  exists st',
    onBeforeRender k st = Ok (tt, st') /\
    selectedModes (callsSince st st') = [modeOfKeys k].
Proof.
  intros Hp. destruct (onBeforeRender_calls k st Hp) as (st' & Hrun & Hcalls).
  exists st'. split; [exact Hrun |].
  unfold callsSince. rewrite Hcalls, skipn_length_app.
  unfold callsOfKeys, modeOfKeys.
  destruct (b k), (s k), (w k), (Shift k); reflexivity.
Qed.

(** X5.  A frame that moves the player (forward or backward down, no
    dance) stops no animation: whatever group was playing before it is
    still playing after it, next to the one it starts.  Going from backward
    straight to forward therefore leaves both walk animations playing. *)
Theorem moving_frame_stops_nothing k st p (g : AnimationGroup) :
  player st = Some p ->
  b k = false -> w k || s k = true ->
  exists st',
    onBeforeRender k st = Ok (tt, st') /\
    (isPlaying g (animations st) = true ->
     isPlaying g (animations st') = true) /\
    isPlaying (if s k && negb (w k) then WalkingBack else Walking)
      (animations st') = true.
Proof.
  intros Hp Hb Hmove.
  destruct (onBeforeRender_calls k st Hp) as (st' & Hrun & Hcalls).
  exists st'. split; [exact Hrun |].
  rewrite Hcalls, !isPlaying_app. unfold callsOfKeys. rewrite Hb.
  destruct (w k), (s k); try discriminate Hmove; cbn;
    (split; [intros Hg; rewrite Hg; destruct g; reflexivity | reflexivity]).
Qed.

(** X6.  The speed of a frame's move is read off that frame's keys alone:
    the player is moved along its forward axis by -0.01 (backward), 0.1
    (sprint) or 0.03, never by what an earlier frame left in [speed] and
    never by an unassigned one; with neither key down the mesh is only
    turned and [speed] keeps its value. *)
Theorem move_uses_this_frames_speed k st p :
  player st = Some p -> b k = false ->
  exists st',
    onBeforeRender k st = Ok (tt, st') /\
    if w k || s k
    then speed st' = Some (speedOfKeys k) /\
         player st' =
           Some (moveWithCollisions (turned k p)
                   (Vector3.scale (forward (turned k p)) (speedOfKeys k)))
    else speed st' = speed st /\ player st' = Some (turned k p).
Proof.
  intros Hp Hb.
  destruct (onBeforeRender_effect k st Hp Hb)
    as (st' & Hrun & _ & _ & _ & Hspeed & Hpl & _).
  exists st'. split; [exact Hrun |].
  rewrite Hpl, Hspeed. unfold speedOfKeys.
  destruct (w k), (s k); cbn; split; reflexivity.
Qed.

(** *** Frames in sequence *)

(** X7.  Until the model has loaded the render loop is inert: any number
    of frames, with any keys and frame times, leave the whole state as it
    was and raise no fault. *)
Theorem frames_before_load_are_inert (inputs : list FrameInput) st :
  player st = None ->
  runFrames inputs st = Ok (tt, st).
Proof.
  intros Hp. induction inputs as [|i rest IH]; [reflexivity |].
  cbn [runFrames]. unfold bind.
  destruct (renderLoop_total i st) as (st' & Hrun & Hsame & _).
  rewrite Hrun, (Hsame Hp). exact IH.
Qed.

Lemma filter_split_perm (A : Type) (f : A -> bool) (l : list A) :
  Permutation (filter (fun c => negb (f c)) l ++ filter f l) l.
Proof.
  induction l as [|h l IH]; [constructor |].
  cbn. destruct (f h); cbn.
  - apply Permutation_sym, Permutation_cons_app, Permutation_sym, IH.
  - constructor. exact IH.
Qed.

(** One frame's sweep, with the disposals. *)
Lemma renderLoop_sweep i st p :
  player st = Some p ->
  exists st' p',
    renderLoop i st = Ok (tt, st') /\ player st' = Some p' /\
    spheres st' = filter (fun c => negb (touches p' c)) (spheres st) /\
    disposed st' = disposed st ++ filter (touches p') (spheres st).
Proof.
  intros Hp.
  assert (H1 : exists st1 p1,
             sceneRender (keys i) st = Ok (tt, st1) /\ player st1 = Some p1 /\
             spheres st1 = spheres st /\ disposed st1 = disposed st).
  { rewrite (sceneRender_present _ _ Hp).
    destruct (b (keys i)) eqn:Hb.
    - rewrite (onBeforeRender_dance _ st Hb). eexists; exists p.
      split; [reflexivity | destruct st; repeat split; exact Hp].
    - destruct (onBeforeRender_effect _ _ Hp Hb)
        as (st1 & Hrun & _ & Hsph & Hdis & _ & Hpl & _).
      eexists; eexists. split; [exact Hrun |].
      split; [exact Hpl |]. split; assumption. }
  destruct H1 as (st1 & p1 & Hcb & Hp1 & Hs1 & Hd1).
  pose proof (updateCamera_present st1 Hp1) as Hcam.
  set (st2 := with_camera _ st1) in Hcam.
  assert (Hp2 : player st2 = Some p1) by (destruct st1; exact Hp1).
  pose proof (applyGravityAndJump_present (deltaMs i) st2 Hp2) as Hint.
  cbv zeta in Hint.
  set (st3 := if landed _ _ _ then _ else _) in Hint.
  assert (Hp3 : player st3 = Some (movedPlayer (deltaMs i) st2 p1))
    by (subst st3; destruct (landed _ _ _); destruct st2; reflexivity).
  assert (Hs3 : spheres st3 = spheres st /\ disposed st3 = disposed st).
  { rewrite <- Hs1, <- Hd1. subst st3 st2.
    destruct (landed _ _ _); destruct st1; split; reflexivity. }
  destruct Hs3 as [Hs3 Hd3].
  pose proof (updateGame_present st3 Hp3) as Hgame.
  eexists; eexists. split.
  - exact (renderLoop_steps i st Hcb Hcam Hint Hgame).
  - rewrite Hs3, Hd3. destruct st3; cbn in *. repeat split. exact Hp3.
Qed.

(** X8.  Over any frames, from any state, the render loop raises no fault
    and keeps the books on the coins: the live spheres together with the
    disposed ones are, up to order, the live and disposed ones it started
    with, so a sphere leaves the live collection only by being disposed of,
    none is disposed of and kept, and none is added; a player that is
    present stays present. *)
Theorem coins_are_conserved (inputs : list FrameInput) : forall st,
  exists st',
    runFrames inputs st = Ok (tt, st') /\
    Permutation (spheres st' ++ disposed st') (spheres st ++ disposed st) /\
    (exists gone, disposed st' = disposed st ++ gone) /\
    (forall p, player st = Some p -> exists p', player st' = Some p').
Proof.
  induction inputs as [|i rest IH]; intros st.
  - exists st. split; [reflexivity |]. split; [apply Permutation_refl |].
    split; [exists []; symmetry; apply app_nil_r |].
    intros p Hp. exists p. exact Hp.
  - assert (H1 : exists st1,
               renderLoop i st = Ok (tt, st1) /\
               Permutation (spheres st1 ++ disposed st1)
                 (spheres st ++ disposed st) /\
               (exists gone, disposed st1 = disposed st ++ gone) /\
               (forall p, player st = Some p ->
                exists p', player st1 = Some p')).
    { destruct (player st) as [p|] eqn:Hp.
      - destruct (renderLoop_sweep i st Hp)
          as (st1 & p1 & Hrun & Hp1 & Hsph & Hdis).
        exists st1. split; [exact Hrun |]. split; [| split].
        + rewrite Hsph, Hdis.
          rewrite (Permutation_app_comm (disposed st)), app_assoc.
          apply Permutation_app_tail, filter_split_perm.
        + eexists. exact Hdis.
        + intros q _. exists p1. exact Hp1.
      - destruct (renderLoop_total i st) as (st1 & Hrun & Hsame & _).
        exists st1. rewrite (Hsame Hp).
        split; [rewrite <- (Hsame Hp) at 2; exact Hrun |].
        split; [apply Permutation_refl |].
        split; [exists []; symmetry; apply app_nil_r |].
        intros p Hq. discriminate Hq. }
    destruct H1 as (st1 & Hrun & Hperm & (gone1 & Hgone1) & Hkeep1).
    destruct (IH st1) as (st' & Hrest & Hperm' & (gone & Hgone) & Hkeep).
    exists st'. split; [| split; [| split]].
    + cbn [runFrames]. unfold bind. rewrite Hrun. exact Hrest.
    + exact (Permutation_trans Hperm' Hperm).
    + exists (gone1 ++ gone). rewrite Hgone, Hgone1, app_assoc. reflexivity.
    + intros p Hp. destruct (Hkeep1 p Hp) as (p1 & Hp1).
      exact (Hkeep p1 Hp1).
Qed.

End SessionTheory.

(** * The theorems at work in the flat world *)

Import FlatWorld.

(** C1 fails as stated: standing on the ground with the jump key and the
    dance key both down, the callback returns from the dance branch; no
    state it could end in has the impulse applied, and the state it does end
    in is still grounded, at rest, with nothing on the console. *)
Lemma dance_skips_jump :
  space danceAndJump = true /\ isGrounded standing = true /\
  ~ (exists st',
       sceneRender danceAndJump standing = Ok (tt, st') /\
       Vector3.y (velocity st') = jumpForce /\ isGrounded st' = false) /\
  exists st',
    sceneRender danceAndJump standing = Ok (tt, st') /\
    isGrounded st' = true /\ velocity st' = Vector3.New 0 0 0 /\
    console st' = [].
Proof.
  split; [reflexivity |]. split; [reflexivity |]. split.
  - intros (st' & Hrun & _ & Hg).
    vm_compute in Hrun. injection Hrun as <-. discriminate Hg.
  - eexists. split; [vm_compute; reflexivity |]. repeat split.
Qed.

(** Running, turning and jumping at once: the impulse is applied. *)
Lemma jump_unless_dancing_running :
  player standing = Some (avatarAt 0 0 0) /\
  exists st',
    sceneRender runAndJump standing = Ok (tt, st') /\
    Vector3.y (velocity st') = jumpForce /\ isGrounded st' = false /\
    jumped standing st'.
Proof.
  split; [reflexivity |].
  exact (jump_unless_dancing runAndJump standing
           (p := avatarAt 0 0 0) eq_refl eq_refl eq_refl).
Defined.

(** C2 fails as stated: jumping from the ground at sixty frames a second,
    the render loop and the specified order end in different states.  The
    loop leaves the camera aimed at the ground-level point where the player
    stood before the integrator lifted it. *)
Lemma specified_order_differs :
  renderLoop (at60 jumpKey) standing <> specifiedOrder (at60 jumpKey) standing /\
  exists st' p',
    renderLoop (at60 jumpKey) standing = Ok (tt, st') /\
    player st' = Some p' /\
    cam_target (camera st') = Some (Vector3.New 0 0 0) /\
    (0 <? Vector3.y (position p')) = true.
Proof.
  split.
  - intros H. apply (f_equal aimsAboveGround) in H.
    vm_compute in H. discriminate H.
  - eexists. eexists. split; [vm_compute; reflexivity |].
    split; [reflexivity |]. split; reflexivity.
Qed.

(** The render loop's own order on the same frame: camera from the player
    as the callback left it, then the move. *)
Lemma camera_before_integrator_at60 :
  exists st1 p1 st',
    sceneRender jumpKey standing = Ok (tt, st1) /\ player st1 = Some p1 /\
    renderLoop (at60 jumpKey) standing = Ok (tt, st') /\
    cam_target (camera st') = Some (position p1) /\
    player st' = Some (movedPlayer 16.667 st1 p1).
Proof.
  destruct (camera_before_integrator (at60 jumpKey) standing) as [_ Hseq].
  destruct (Hseq (avatarAt 0 0 0) eq_refl)
    as (st1 & p1 & st' & Hcb & Hp1 & Hrun & Htgt & _ & Hp' & _).
  exists st1, p1, st'. repeat split; assumption.
Defined.

(** Standing next to the first coin: the sweep takes it, and it stays out
    whatever frames follow. *)
Lemma pickups_only_shrink_standing :
  exists st',
    renderLoop (at60 noKeys) standing = Ok (tt, st') /\
    spheres st' = [coin "coin_1" 10 (-7); coin "coin_2" (-3) 21] /\
    forall later : list FrameInput,
    exists st'',
      runFrames later st' = Ok (tt, st'') /\
      ~ In (coin "coin_0" 0.2 0.1) (spheres st'') /\
      (List.length (spheres st'') <= 2)%nat.
Proof.
  destruct (pickups_only_shrink (at60 noKeys) standing)
    as (st' & Hrun & _ & _ & Hgone).
  exists st'. split; [exact Hrun |].
  assert (Hst := Hrun). vm_compute in Hst. injection Hst as Hst.
  assert (Hsph : spheres st' = [coin "coin_1" 10 (-7); coin "coin_2" (-3) 21])
    by (rewrite <- Hst; vm_compute; reflexivity).
  split; [exact Hsph |].
  intros later.
  destruct (Hgone (avatarAt 0 0 0) (coin "coin_0" 0.2 0.1)) with (later := later)
    as (st'' & Hlater & Hout & Hlen).
  - rewrite <- Hst. vm_compute. reflexivity.
  - left. reflexivity.
  - vm_compute. reflexivity.
  - exists st''. rewrite Hsph in Hlen. repeat split; assumption.
Defined.

(** Before the model has loaded, a frame changes nothing. *)
Lemma no_avatar_no_op_loading :
  player loading = None /\
  applyGravityAndJump 16.667 loading = Ok (tt, loading) /\
  updateCamera loading = Ok (tt, loading) /\
  updateGame loading = Ok (tt, loading) /\
  renderLoop (at60 jumpKey) loading = Ok (tt, loading).
Proof.
  split; [reflexivity |].
  exact (no_avatar_no_op 16.667 (at60 jumpKey) loading eq_refl).
Defined.

(** Coming down through the threshold: landed, at rest. *)
Lemma landing_zeroes_velocity_descending :
  player descending = Some (avatarAt 0 0.12 0) /\
  landed 16.667 descending (avatarAt 0 0.12 0) = true /\
  (Vector3.y (integratedVelocity 16.667 descending) <? 0) = true /\
  exists st',
    applyGravityAndJump 16.667 descending = Ok (tt, st') /\
    player st' = Some (movedPlayer 16.667 descending (avatarAt 0 0.12 0)) /\
    isGrounded st' = true /\
    Vector3.y (velocity st') = 0.
Proof.
  split; [reflexivity |]. split; [reflexivity |]. split; [reflexivity |].
  exact (landing_zeroes_velocity (dt := 16.667) (st := descending)
           (p := avatarAt 0 0.12 0) eq_refl eq_refl).
Defined.


(** Dancing with the jump key down: the player mesh is untouched. *)
Lemma dance_is_exclusive_standing :
  b danceAndJump = true /\
  exists st',
    onBeforeRender danceAndJump standing = Ok (tt, st') /\
    player st' = Some (avatarAt 0 0 0) /\
    velocity st' = Vector3.New 0 0 0 /\
    isGrounded st' = true /\
    selectedModes (callsSince standing st') = [Dance].
Proof.
  split; [reflexivity |].
  destruct (dance_is_exclusive danceAndJump standing eq_refl)
    as (st' & Hrun & _ & Hp & _ & Hv & Hg & Hmode).
  exists st'. repeat split; assumption.
Defined.

(** Forward, backward and sprint together: a run. *)
Lemma forward_beats_backward_sprinting :
  player standing = Some (avatarAt 0 0 0) /\
  exists st',
    onBeforeRender (forwardAndBackward true) standing = Ok (tt, st') /\
    speed st' = Some playerRunSpeed /\
    selectedModes (callsSince standing st') = [RunForward] /\
    ~ In WalkBackward (selectedModes (callsSince standing st')).
Proof.
  split; [reflexivity |].
  destruct (forward_beats_backward (forwardAndBackward true) standing
              (p := avatarAt 0 0 0) eq_refl eq_refl eq_refl eq_refl)
    as (st' & Hrun & Hspeed & _ & Hmode & Hnot).
  exists st'. repeat split; assumption.
Defined.

(** The end-to-end camera scenario: at the origin, facing +Z. *)
Lemma camera_follows_avatar_standing :
  player standing = Some (avatarAt 0 0 0) /\
  exists st',
    updateCamera standing = Ok (tt, st') /\
    cam_position (camera st') = Vector3.New 0 5 (-10) /\
    cam_target (camera st') = Some (Vector3.New 0 0 0).
Proof.
  split; [reflexivity |].
  destruct (camera_follows_avatar standing (p := avatarAt 0 0 0) eq_refl)
    as (st' & Hrun & _ & _ & Hpos & Htgt).
  exists st'. split; [exact Hrun |].
  split; [apply Hpos | apply Htgt]; reflexivity.
Defined.

(** Going up at two units a second just above the ground: the integrator
    still calls it a landing. *)
Lemma rising_counts_as_landing :
  exists st',
    applyGravityAndJump 16.667 rising = Ok (tt, st') /\
    (0 <? Vector3.y (integratedVelocity 16.667 rising)) = true /\
    isGrounded st' = true /\ velocity st' = Vector3.New 0 0 0.
Proof.
  eexists. split; [vm_compute; reflexivity |]. repeat split.
Qed.

(** At sixty frames a second a jump from the ground is cancelled in the
    frame that applies it: the impulse lifts the player by less than 0.1 in
    one frame. *)
Lemma landing_ignores_direction_at60 :
  player standing = Some (avatarAt 0 0 0) /\
  exists st1 st' p',
    sceneRender jumpKey standing = Ok (tt, st1) /\ jumped standing st1 /\
    Vector3.y (velocity st1) = jumpForce /\
    renderLoop (at60 jumpKey) standing = Ok (tt, st') /\
    player st' = Some p' /\
    (0 <? Vector3.y (position p')) = true /\
    isGrounded st' = true /\ Vector3.y (velocity st') = 0.
Proof.
  split; [reflexivity |].
  destruct (landing_ignores_direction (at60 jumpKey) standing
              (p := avatarAt 0 0 0) eq_refl) as [_ Hjump].
  destruct (Hjump eq_refl eq_refl eq_refl)
    as (st1 & p1 & st' & Hcb & Hj & Hvy & Hg1 & Hp1 & Hrun & Hp' & Hland).
  exists st1, st', (movedPlayer (deltaMs (at60 jumpKey)) st1 p1).
  assert (Hst1 := Hcb). vm_compute in Hst1. injection Hst1 as Hst1.
  assert (Hp1' := Hp1). rewrite <- Hst1 in Hp1'.
  injection Hp1' as Hp1'.
  assert (Hl : landed (deltaMs (at60 jumpKey)) st1 p1 = true)
    by (rewrite <- Hst1, <- Hp1'; vm_compute; reflexivity).
  destruct (Hland Hl) as [Hg Hv].
  repeat (split; [assumption |]).
  split; [rewrite <- Hst1, <- Hp1'; vm_compute; reflexivity |].
  split; assumption.
Defined.
